(** * Connector health-check route: a shallow embedding of
      [team-portal/app/api/status/route.js].

    The route probes every connector of the catalog at [<url>/health] and
    answers with one report item per connector.  The JavaScript platform the
    route runs on (the clock, timers, [AbortController], [fetch]) is modelled in
    [Module JS]; the two functions of the route, [fetchWithTimeout] and [GET],
    are transcribed in [Module Route] over a small state-and-exception monad.
    [Module Auth] holds the [signIn] callback of the NextAuth handler and
    [Module StatusView] the state and the cells of [status-view.jsx], the page
    that shows the report. *)

From stdpp Require Import base numbers option list strings gmap sorting pretty.
From Stdlib Require Import ZArith Ascii Lia.

Local Open Scope string_scope.
Local Open Scope list_scope.
Local Open Scope Z_scope.

(** ** The platform *)
Module JS.

(** What [fetch] can reject with: an abort of its signal, or a network-level
    failure (connection refused, DNS, TLS), which the platform reports as a
    [TypeError]. *)
Inductive Error : Type :=
| AbortError
| TypeError.

(** How an awaited computation ends.  [Pending] is a promise that never
    settles: nothing after the [await] runs, not even a [finally] block. *)
Inductive Completion (A : Type) : Type :=
| Normal (a : A)
| Throws (e : Error)
| Pending.
Global Arguments Normal {A} a.
Global Arguments Throws {A} e.
Global Arguments Pending {A}.

(** What the remote end does with one request, the time counted in
    milliseconds from the moment the request is issued. *)
Inductive Outcome : Type :=
| Responds (status : Z) (elapsed : Z)
| Fails (elapsed : Z)
| Hangs.

(** The network: the outcome of the [n]-th request of the run, given its URL. *)
Definition Network : Type := nat -> string -> Outcome.

(** Observable events, each stamped with the clock reading at which it
    happens. *)
Inductive Event : Type :=
| EvSetTimeout (t : Z) (timer : nat) (ms : Z)
| EvRequest (t : Z) (method : string) (url : string)
| EvResponse (t : Z) (status : Z)
| EvNetError (t : Z)
| EvAbort (t : Z) (timer : nat)
| EvClearTimeout (t : Z) (timer : nat).

(** The state of the platform: the wall clock in milliseconds, the armed
    abort timers with their expiry times, the number of requests issued so
    far, and the trace of events. *)
Record World : Type := mkWorld {
  now : Z;
  next_timer : nat;
  timers : gmap nat Z;
  requests : nat;
  log : list Event
}.

Definition emit (e : Event) (w : World) : World :=
  mkWorld (now w) (next_timer w) (timers w) (requests w) (log w ++ [e]).

Definition set_now (t : Z) (w : World) : World :=
  mkWorld t (next_timer w) (timers w) (requests w) (log w).

(** Computations: state passing over [World], ending in a [Completion]. *)
Definition M (A : Type) : Type := World -> Completion A * World.

Global Instance M_ret : MRet M := fun A a w => (Normal a, w).

Global Instance M_bind : MBind M := fun A B f m w =>
  match m w with
  | (Normal a, w') => f a w'
  | (Throws e, w') => (Throws e, w')
  | (Pending, w') => (Pending, w')
  end.

(** [try { body } catch (err) { handler }] *)
Definition try_catch {A} (body : M A) (handler : Error -> M A) : M A := fun w =>
  match body w with
  | (Throws e, w') => handler e w'
  | r => r
  end.

(** [try { body } finally { cleanup }]: the cleanup runs on both exits and the
    completion of the body is kept. *)
Definition try_finally {A} (body : M A) (cleanup : M unit) : M A := fun w =>
  match body w with
  | (Normal a, w') =>
      match cleanup w' with
      | (Normal _, w'') => (Normal a, w'')
      | (Throws e, w'') => (Throws e, w'')
      | (Pending, w'') => (Pending, w'')
      end
  | (Throws e, w') =>
      match cleanup w' with
      | (Normal _, w'') => (Throws e, w'')
      | (Throws e', w'') => (Throws e', w'')
      | (Pending, w'') => (Pending, w'')
      end
  | (Pending, w') => (Pending, w')
  end.

(** [Date.now()] *)
Definition Date_now : M Z := fun w => (Normal (now w), w).

(** The delay [setTimeout] arms for a requested delay: the platform keeps a
    delay from 1 to 2^31 - 1 and arms 1 ms for any other. *)
Definition timer_delay (ms : Z) : Z :=
  if (1 <=? ms) && (ms <=? 2147483647) then ms else 1.

(** [const controller = new AbortController();
     const timeout = setTimeout(() => controller.abort(), ms);]
    One handle stands for the timer and for the signal of the controller its
    callback aborts. *)
Definition setTimeout_abort (ms : Z) : M nat := fun w =>
  let id := next_timer w in
  (Normal id,
   mkWorld (now w) (S id) (<[id := now w + timer_delay ms]> (timers w)) (requests w)
           (log w ++ [EvSetTimeout (now w) id ms])).

(** [clearTimeout(timeout)] *)
Definition clearTimeout (id : nat) : M unit := fun w =>
  (Normal tt,
   mkWorld (now w) (next_timer w) (delete id (timers w)) (requests w)
           (log w ++ [EvClearTimeout (now w) id])).

(** The second argument of [fetch]. *)
Record RequestInit : Type := mkInit {
  init_method : option string;
  init_signal : option nat;
  init_cache : option string
}.

(** A [Response]: only its status is read.  [res.ok] is the platform's
    getter: true exactly for a status from 200 to 299. *)
Record Response : Type := mkResponse { status : Z }.

Definition Response_ok (res : Response) : bool :=
  (200 <=? status res) && (status res <=? 299).

(** A settlement at time [t] wins against the abort timer when it comes
    strictly before the timer expires. *)
Definition before_deadline (t : Z) (due : option Z) : bool :=
  match due with
  | Some d => t <? d
  | None => true
  end.

(** The signal fires: the timer is consumed and the request is cancelled.
    Without an armed timer the promise stays pending.  The timer is taken to
    fire at its due time (a real one fires then or later). *)
Definition abort_or_pending {A} (sig : option nat) (due : option Z) : M A := fun w =>
  match sig, due with
  | Some id, Some d =>
      let t := Z.max (now w) d in
      (Throws AbortError,
       mkWorld t (next_timer w) (delete id (timers w)) (requests w)
               (log w ++ [EvAbort t id]))
  | _, _ => (Pending, w)
  end.

Section Fetch.
Variable net : Network.

(** [await fetch(url, init)]: the request goes out (method GET unless the
    init names another), then the response, the network failure or the
    abort of the signal settles the promise, whichever comes first.  The
    response is the one the promise resolves with, after any redirect the
    platform follows by itself. *)
Definition fetch (url : string) (init : RequestInit) : M Response := fun w =>
  let due := init_signal init ≫= (fun id => timers w !! id) in
  let w1 :=
    mkWorld (now w) (next_timer w) (timers w) (S (requests w))
            (log w ++ [EvRequest (now w) (default "GET" (init_method init)) url]) in
  match net (requests w) url with
  | Responds st elapsed =>
      let t := now w + elapsed in
      if before_deadline t due
      then (Normal (mkResponse st), emit (EvResponse t st) (set_now t w1))
      else abort_or_pending (init_signal init) due w1
  | Fails elapsed =>
      let t := now w + elapsed in
      if before_deadline t due
      then (Throws TypeError, emit (EvNetError t) (set_now t w1))
      else abort_or_pending (init_signal init) due w1
  | Hangs => abort_or_pending (init_signal init) due w1
  end.
End Fetch.

End JS.

(** ** The route *)
Module Route.
Import JS.

(** An entry of [data/connectors.json]; the route reads these three fields. *)
Record Connector : Type := mkConnector {
  id : string;
  name : string;
  url : string
}.

(** What [fetchWithTimeout] resolves with. *)
Record FetchResult : Type := mkFetchResult {
  ok : bool;
  status_code : Z;
  latency_ms : Z
}.

(** A report item; [None] is JavaScript's [null].  [checked_at] keeps the
    clock reading that [new Date().toISOString()] renders. *)
Record Item : Type := mkItem {
  item_id : string;
  item_name : string;
  item_url : string;
  item_ok : bool;
  item_status_code : option Z;
  item_latency_ms : option Z;
  item_checked_at : Z
}.

(** The body of the response of [GET]. *)
Record Report : Type := mkReport { items : list Item }.

(** [s.replace(/\/$/, "")]: a slash that is the last character of the string
    is removed, and nothing else. *)
Fixpoint strip_trailing_slash (s : string) : string :=
  match s with
  | EmptyString => EmptyString
  | String c rest =>
      match rest with
      | EmptyString => if Ascii.eqb c "/"%char then EmptyString else s
      | String _ _ => String c (strip_trailing_slash rest)
      end
  end.

Definition healthUrl (connector : Connector) : string :=
  strip_trailing_slash (url connector) +:+ "/health".

(** [new Date().toISOString()] *)
Definition Date_toISOString : M Z := Date_now.

Section Handlers.
Variable net : Network.

(** [async function fetchWithTimeout(url, timeoutMs = 4000)]; [None] is the
    omitted argument. *)
Definition fetchWithTimeout (url : string) (timeoutMs : option Z) : M FetchResult :=
  let timeoutMs := default 4000 timeoutMs in
  timeout ← setTimeout_abort timeoutMs;
  start ← Date_now;
  try_finally
    (res ← fetch net url (mkInit None (Some timeout) (Some "no-store"));
     t ← Date_now;
     let latencyMs := t - start in
     mret (mkFetchResult (Response_ok res) (status res) latencyMs))
    (clearTimeout timeout).

(** The body of the [for ... of] loop, [items.push] returning the extended
    array. *)
Definition probe (connector : Connector) (items : list Item) : M (list Item) :=
  let healthUrl := healthUrl connector in
  try_catch
    (result ← fetchWithTimeout healthUrl None;
     checked ← Date_toISOString;
     mret (items ++ [mkItem (id connector) (name connector) (url connector)
                            (ok result) (Some (status_code result))
                            (Some (latency_ms result)) checked]))
    (fun err =>
     checked ← Date_toISOString;
     mret (items ++ [mkItem (id connector) (name connector) (url connector)
                            false None None checked])).

Fixpoint GET_loop (connectors : list Connector) (items : list Item) : M (list Item) :=
  match connectors with
  | [] => mret items
  | connector :: rest =>
      items' ← probe connector items;
      GET_loop rest items'
  end.

(** [export async function GET()], over the imported catalog; the result is
    the object handed to [Response.json]. *)
Definition GET (connectors : list Connector) : M Report :=
  items ← GET_loop connectors [];
  mret (mkReport items).
End Handlers.

End Route.

Import JS Route.

(** ** Reading traces *)

(** The requests of a trace, in the order they went out. *)
Fixpoint issued (es : list Event) : list (string * string) :=
  match es with
  | [] => []
  | EvRequest _ method url :: es' => (method, url) :: issued es'
  | _ :: es' => issued es'
  end.

(** The number of requests in flight after an event, [n] being the number
    before it: a request adds one, each way of settling removes one. *)
Definition in_flight (n : nat) (e : Event) : nat :=
  match e with
  | EvRequest _ _ _ => S n
  | EvResponse _ _ | EvNetError _ | EvAbort _ _ => Nat.pred n
  | EvSetTimeout _ _ _ | EvClearTimeout _ _ => n
  end.

Definition flight_after (n : nat) (es : list Event) : nat :=
  foldl in_flight n es.

(** The largest number of requests in flight at any point of a trace. *)
Fixpoint peak (n : nat) (es : list Event) : nat :=
  match es with
  | [] => n
  | e :: es' => Nat.max n (peak (in_flight n e) es')
  end.

(** Whether the remote end settles the request strictly within [ms]. *)
Definition settles_within (o : Outcome) (ms : Z) : bool :=
  match o with
  | Responds _ elapsed | Fails elapsed => elapsed <? ms
  | Hangs => false
  end.

(** Time does not run backwards between the two readings of the clock. *)
Definition elapsed_nonneg (o : Outcome) : Prop :=
  match o with
  | Responds _ elapsed | Fails elapsed => 0 <= elapsed
  | Hangs => True
  end.

Definition causal (net : Network) : Prop :=
  forall n u, elapsed_nonneg (net n u).

(** Sample worlds, networks and catalogs. *)
Definition boot : World := mkWorld 1000 0 ∅ 0 [].

Definition net_mixed : Network := fun n _ =>
  match n with
  | O => Responds 200 120
  | 1%nat => Responds 404 30
  | 2%nat => Fails 5
  | 3%nat => Hangs
  | _ => Responds 304 10
  end.

Definition catalog : list Connector :=
  [ mkConnector "a" "A" "http://a/";
    mkConnector "b" "B" "http://b";
    mkConnector "c" "C" "http://c//";
    mkConnector "d" "D" "";
    mkConnector "e" "E" "/" ].

(** ** What a probe and a cycle do *)

(** What one call of [fetchWithTimeout] with timeout [ms] does, read off the
    outcome [o] of its request: how it completes, the settling event and the
    clock at the end. *)
Inductive Fetched (o : Outcome) (ms t0 : Z) (timer : nat) :
  Completion FetchResult -> Event -> Z -> Prop :=
| Fetched_response st e :
    o = Responds st e -> e < ms ->
    Fetched o ms t0 timer
            (Normal (mkFetchResult (Response_ok (mkResponse st)) st e))
            (EvResponse (t0 + e) st) (t0 + e)
| Fetched_failure e :
    o = Fails e -> e < ms ->
    Fetched o ms t0 timer (Throws TypeError) (EvNetError (t0 + e)) (t0 + e)
| Fetched_timeout :
    settles_within o ms = false ->
    Fetched o ms t0 timer (Throws AbortError)
            (EvAbort (Z.max t0 (t0 + ms)) timer) (Z.max t0 (t0 + ms)).

(** The same for one pass of the loop of [GET]: the verdict fields of the
    pushed item instead of the completion. *)
Inductive Probed (o : Outcome) (t0 : Z) (timer : nat) :
  bool -> option Z -> option Z -> Event -> Z -> Prop :=
| Probed_response st e :
    o = Responds st e -> e < 4000 ->
    Probed o t0 timer (Response_ok (mkResponse st)) (Some st) (Some e)
           (EvResponse (t0 + e) st) (t0 + e)
| Probed_failure e :
    o = Fails e -> e < 4000 ->
    Probed o t0 timer false None None (EvNetError (t0 + e)) (t0 + e)
| Probed_timeout :
    settles_within o 4000 = false ->
    Probed o t0 timer false None None (EvAbort (t0 + 4000) timer) (t0 + 4000).

(** A run of the loop of [GET] over a catalog, from request number [n], clock
    [t] and timer handle [k]: the items pushed, the events emitted and the
    clock at the end. *)
Inductive Cycle (net : Network) :
  nat -> Z -> nat -> list Connector -> list Item -> list Event -> Z -> Prop :=
| Cycle_done n t k : Cycle net n t k [] [] [] t
| Cycle_probe n t k c cs it ev t' its es t'' :
    item_id it = id c -> item_name it = name c -> item_url it = url c ->
    item_checked_at it = t' ->
    Probed (net n (healthUrl c)) t k
           (item_ok it) (item_status_code it) (item_latency_ms it) ev t' ->
    Cycle net (S n) t' (S k) cs its es t'' ->
    Cycle net n t k (c :: cs) (it :: its)
          (EvSetTimeout t k 4000 :: EvRequest t "GET" (healthUrl c) :: ev ::
           EvClearTimeout t' k :: es) t''.

(** ** Properties named by the specification *)

(** The invariant of a report item in the specification's words, a successful
    status being one of the success or redirect range, 200 to 399. *)
Definition ProbeResult_invariant (it : Item) : Prop :=
  (item_ok it = true ->
     (exists s, item_status_code it = Some s /\ 200 <= s <= 399) /\
     (exists l, item_latency_ms it = Some l /\ 0 <= l)) /\
  (item_ok it = false ->
     item_status_code it = None /\ item_latency_ms it = None).

(** Status and latency are null together, and a latency is not negative. *)
Definition fields_paired (it : Item) : Prop :=
  (item_status_code it = None <-> item_latency_ms it = None) /\
  (forall l, item_latency_ms it = Some l -> 0 <= l).

(** No response was received within [ms]: the request timed out or failed on
    the network. *)
Definition no_response (o : Outcome) (ms : Z) : Prop :=
  match o with
  | Responds _ elapsed => ms <= elapsed
  | Fails _ | Hangs => True
  end.

(** The invariant the route keeps, an item read against the outcome [o] of
    the request of its probe.  A healthy item comes from a response received
    within the 4000 ms, with a status from 200 to 299, and carries that status
    and the elapsed time.  An unhealthy item either comes from a probe that
    received no response and carries two nulls, or comes from a response
    received within the 4000 ms with a status outside 200 to 299 and carries
    that status and the elapsed time.  The latency is not negative when the
    clock did not run backwards during the probe. *)
Definition Item_invariant (o : Outcome) (it : Item) : Prop :=
  (item_ok it = true ->
     exists st e, o = Responds st e /\ e < 4000 /\ 200 <= st <= 299 /\
                  item_status_code it = Some st /\ item_latency_ms it = Some e) /\
  (item_ok it = false ->
     (no_response o 4000 /\
      item_status_code it = None /\ item_latency_ms it = None) \/
     (exists st e, o = Responds st e /\ e < 4000 /\ ~ (200 <= st <= 299) /\
                   item_status_code it = Some st /\ item_latency_ms it = Some e)) /\
  (elapsed_nonneg o -> forall l, item_latency_ms it = Some l -> 0 <= l).

(** Status and latency are null together, and a latency that is not null is
    the elapsed time of a response received within the 4000 ms, which is not
    negative when the clock did not run backwards during the probe. *)
Definition latency_is_elapsed (o : Outcome) (it : Item) : Prop :=
  (item_status_code it = None <-> item_latency_ms it = None) /\
  (forall l, item_latency_ms it = Some l ->
     (exists st, o = Responds st l /\ l < 4000) /\
     (elapsed_nonneg o -> 0 <= l)).

(** The probe fails: a timeout, a network failure, or a response whose status
    is not from 200 to 299 (which includes every status outside 200 to 399). *)
Definition probe_fails (o : Outcome) (ms : Z) : Prop :=
  match o with
  | Responds st elapsed => ms <= elapsed \/ ~ (200 <= st <= 299)
  | Fails _ | Hangs => True
  end.

(** Probes run concurrently: at some point of the trace two requests are in
    flight. *)
Definition dispatched_concurrently (es : list Event) : Prop :=
  (2 <= peak 0 es)%nat.

Definition net_slow : Network := fun _ _ => Responds 200 100.

Definition net_redirect : Network := fun _ _ => Responds 304 10.

(** The wall clock is set back during the probe: the second reading of
    [Date.now()] is 5 ms before the first. *)
Definition net_backwards : Network := fun _ _ => Responds 200 (-5).

Definition pair_catalog : list Connector :=
  [ mkConnector "slow" "Slow" "http://slow/"; mkConnector "fast" "Fast" "http://fast" ].

(** ** The sign-in gate: the NextAuth handler of the portal *)
Module Auth.

(** [v || d] for a string [v] that may be missing: the empty string is as
    falsy as [undefined]. *)
Definition or_else (v : option string) (d : string) : string :=
  match v with
  | None | Some EmptyString => d
  | Some s => s
  end.

(** [s.endsWith(searchString)], no end position given: the last
    [searchString.length] characters of [s] are [searchString]. *)
Definition endsWith (s searchString : string) : bool :=
  let len := String.length s in
  let searchLength := String.length searchString in
  if (searchLength =? 0)%nat then true
  else if (len <? searchLength)%nat then false
  else String.eqb (String.substring (len - searchLength) searchLength s) searchString.

(** The profile the provider hands to the callback; [profile?.email] is
    [None] when the profile or its email is missing. *)
Record Profile : Type := mkProfile { email : option string }.

(** [const allowedDomain = process.env.ALLOWED_EMAIL_DOMAIN || "seh.foundation";] *)
Definition allowedDomain (env : option string) : string :=
  or_else env "seh.foundation".

(** [async signIn({ profile })] *)
Definition signIn (allowedDomain : string) (profile : option Profile) : bool :=
  let email := or_else (profile ≫= email) "" in
  endsWith email ("@" +:+ allowedDomain).

End Auth.

(** The domain of an address: what follows its last [@], if it has one. *)
Fixpoint domain_of (s : string) : option string :=
  match s with
  | EmptyString => None
  | String c s' =>
      match domain_of s' with
      | Some d => Some d
      | None => if Ascii.eqb c "@"%char then Some s' else None
      end
  end.

(** ** The status page: [status-view.jsx] *)
Module StatusView.

(** What an expression in braces renders as: a number or a text. *)
Inductive Node : Type :=
| NumberNode (n : Z)
| TextNode (s : string).

(** [item.ok ? "healthy" : "down"] *)
Definition badge_text (item : Item) : string :=
  if item_ok item then "healthy" else "down".

(** [`badge ${item.ok ? "production" : "dev"}`] *)
Definition badge_class (item : Item) : string :=
  "badge " +:+ (if item_ok item then "production" else "dev").

(** [item.status_code || "n/a"]: [null] and [0] are falsy. *)
Definition status_cell (item : Item) : Node :=
  match item_status_code item with
  | Some n => if n =? 0 then TextNode "n/a" else NumberNode n
  | None => TextNode "n/a"
  end.

(** [item.latency_ms ? `${item.latency_ms} ms` : "n/a"] *)
Definition latency_cell (item : Item) : Node :=
  match item_latency_ms item with
  | Some n => if n =? 0 then TextNode "n/a" else TextNode (pretty n +:+ " ms")
  | None => TextNode "n/a"
  end.

(** The state of the component. *)
Record Status : Type := mkStatus {
  loading : bool;
  shown : list Item;
  error : option string
}.

(** [useState({ loading: true, items: [], error: null })] *)
Definition initial : Status := mkStatus true [] None.

(** The parsed body of the answer of [/api/status]; either field may be
    missing. *)
Record Data : Type := mkData {
  data_items : option (list Item);
  data_error : option string
}.

(** The body [Response.json({ items })] carries, as [res.json()] reads it
    back. *)
Definition body (report : Report) : Data :=
  mkData (Some (items report)) None.

(** The [then] callback: nothing once the effect is cleaned up; else
    [{ loading: false, items: data.items || [], error: data.error || null }]. *)
Definition on_data (active : bool) (data : Data) (st : Status) : Status :=
  if active
  then mkStatus false (default [] (data_items data))
         (match data_error data with
          | None | Some EmptyString => None
          | Some e => Some e
          end)
  else st.

(** The [catch] callback: [{ loading: false, items: [], error: err.message }]. *)
Definition on_error (active : bool) (message : string) (st : Status) : Status :=
  if active then mkStatus false [] (Some message) else st.

(** What can happen to the effect of the component: the request resolves
    with a body, it rejects with a message, or the effect is cleaned up
    ([active = false]). *)
Inductive ViewEvent : Type :=
| Resolved (data : Data)
| Rejected (message : string)
| CleanedUp.

(** The effect's [active] flag together with the state of the component. *)
Definition step (s : bool * Status) (ev : ViewEvent) : bool * Status :=
  match ev with
  | Resolved data => (s.1, on_data s.1 data s.2)
  | Rejected message => (s.1, on_error s.1 message s.2)
  | CleanedUp => (false, s.2)
  end.

(** The component from its mount on. *)
Definition run (evs : list ViewEvent) : bool * Status :=
  foldl step (true, initial) evs.

End StatusView.

(** ** Further readings of a cycle *)

(** Timer handles are handed out in increasing order: no timer is armed under
    a handle that is still to be handed out. *)
Definition wf_world (w : World) : Prop :=
  forall k : nat, (next_timer w <= k)%nat -> timers w !! k = None.

(** The time one probe of [GET] takes: the time the remote end needs when it
    settles within the 4000 ms of the timer, 4000 ms otherwise. *)
Definition probe_duration (o : Outcome) : Z :=
  match o with
  | Responds _ elapsed | Fails elapsed => if elapsed <? 4000 then elapsed else 4000
  | Hangs => 4000
  end.

(** The sum of the durations of the probes of a catalog, the first request
    being number [n]. *)
Fixpoint cycle_duration (net : Network) (n : nat) (cs : list Connector) : Z :=
  match cs with
  | [] => 0
  | c :: cs' => probe_duration (net n (healthUrl c)) + cycle_duration net (S n) cs'
  end.

(** ** Facts about one probe *)

Lemma deadline_shift (t e ms : Z) :
  before_deadline (t + e) (Some (t + ms)) = (e <? ms).
Proof.
  unfold before_deadline.
  destruct (Z.ltb_spec (t + e) (t + ms)), (Z.ltb_spec e ms); auto; lia.
Qed.

Section ProbeFacts.
Variable net : Network.

Lemma fetchWithTimeout_spec (u : string) (timeoutMs : option Z) (w : World) :
  exists r ev w',
    fetchWithTimeout net u timeoutMs w = (r, w') /\
    Fetched (net (requests w) u) (timer_delay (default 4000 timeoutMs)) (now w)
            (next_timer w) r ev (now w') /\
    requests w' = S (requests w) /\
    next_timer w' = S (next_timer w) /\
    timers w' !! next_timer w = None /\
    log w' = log w ++ [EvSetTimeout (now w) (next_timer w) (default 4000 timeoutMs);
                       EvRequest (now w) "GET" u;
                       ev;
                       EvClearTimeout (now w') (next_timer w)].
Proof.
  set (arg := default 4000 timeoutMs).
  unfold fetchWithTimeout, try_finally, fetch. fold arg.
  unfold mbind, M_bind, mret, M_ret, setTimeout_abort, Date_now, clearTimeout.
  cbn [default init_signal init_method now next_timer timers requests log
       mbind option_bind].
  set (ms := timer_delay arg).
  rewrite lookup_insert_eq.
  assert (Hlog : forall (l : list Event) a b c d,
             ((l ++ [a]) ++ [b]) ++ [c] ++ [d] = l ++ [a; b; c; d])
    by (intros; rewrite <- !app_assoc; reflexivity).
  destruct (net (requests w) u) as [st e | e |] eqn:Ho;
    rewrite ?deadline_shift;
    [destruct (Z.ltb_spec e ms) | destruct (Z.ltb_spec e ms) |];
    unfold abort_or_pending, emit, set_now;
    cbn [now next_timer timers requests log];
    try replace (now w + e - now w) with e by lia;
    (eexists _, _, _; split; [reflexivity |]);
    cbn [now next_timer timers requests log];
    rewrite ?lookup_delete_eq, <- ?app_assoc;
    (split; [| repeat split; reflexivity]).
  - now apply (Fetched_response _ _ _ _ st e).
  - apply Fetched_timeout. cbn. now apply Z.ltb_ge.
  - now apply (Fetched_failure _ _ _ _ e).
  - apply Fetched_timeout. cbn. now apply Z.ltb_ge.
  - now apply Fetched_timeout.
Qed.

Lemma probe_spec (c : Connector) (items : list Item) (w : World) :
  exists it ev w',
    probe net c items w = (Normal (items ++ [it]), w') /\
    item_id it = id c /\ item_name it = name c /\ item_url it = url c /\
    item_checked_at it = now w' /\
    Probed (net (requests w) (healthUrl c)) (now w) (next_timer w)
           (item_ok it) (item_status_code it) (item_latency_ms it) ev (now w') /\
    requests w' = S (requests w) /\
    next_timer w' = S (next_timer w) /\
    log w' = log w ++ [EvSetTimeout (now w) (next_timer w) 4000;
                       EvRequest (now w) "GET" (healthUrl c);
                       ev;
                       EvClearTimeout (now w') (next_timer w)].
Proof.
  destruct (fetchWithTimeout_spec (healthUrl c) None w)
    as (r & ev & w' & Hrun & Hf & Hreq & Htim & _ & Hlog).
  unfold probe, try_catch, mbind, M_bind, mret, M_ret, Date_toISOString, Date_now.
  rewrite Hrun. cbn [default] in Hf, Hlog.
  change (timer_delay 4000) with 4000 in Hf.
  assert (Hmax : Z.max (now w) (now w + 4000) = now w + 4000) by lia.
  inversion Hf as [st e Ho He Hr Hev Hnow | e Ho He Hr Hev Hnow | Ho Hr Hev Hnow];
    subst r ev; rewrite ?Hmax in *; (eexists _, _, w'; split; [reflexivity |]);
    cbn [item_id item_name item_url item_checked_at item_ok item_status_code
         item_latency_ms ok status_code latency_ms];
    repeat (split; [first [reflexivity | assumption] |]); try assumption;
    rewrite <- Hnow in Hlog |- *.
  - split; [now apply (Probed_response _ _ _ st e) | auto].
  - split; [now apply (Probed_failure _ _ _ e) | auto].
  - split; [now apply Probed_timeout | auto].
Qed.
End ProbeFacts.

(** ** Facts about one cycle *)

Section CycleFacts.
Variable net : Network.

Lemma GET_loop_cycle (cs : list Connector) :
  forall (acc : list Item) (w : World),
  exists new es w',
    GET_loop net cs acc w = (Normal (acc ++ new), w') /\
    log w' = log w ++ es /\
    Cycle net (requests w) (now w) (next_timer w) cs new es (now w').
Proof.
  induction cs as [| c cs IH]; intros acc w.
  - exists [], [], w. rewrite !app_nil_r. repeat split. constructor.
  - destruct (probe_spec net c acc w)
      as (it & ev & w1 & Hrun & Hid & Hname & Hurl & Hat & Hp & Hreq & Htim & Hlog).
    destruct (IH (acc ++ [it]) w1) as (new & es & w2 & Hrest & Hlog2 & Hcyc).
    exists (it :: new), (EvSetTimeout (now w) (next_timer w) 4000 ::
                         EvRequest (now w) "GET" (healthUrl c) :: ev ::
                         EvClearTimeout (now w1) (next_timer w) :: es), w2.
    split; [| split].
    + cbn [GET_loop]. unfold mbind, M_bind at 1. rewrite Hrun, Hrest.
      now rewrite <- app_assoc.
    + rewrite Hlog2, Hlog, <- app_assoc. reflexivity.
    + rewrite Hreq, Htim in Hcyc. now apply Cycle_probe.
Qed.

Lemma GET_cycle (cs : list Connector) (w : World) :
  exists report es w',
    GET net cs w = (Normal report, w') /\
    log w' = log w ++ es /\
    Cycle net (requests w) (now w) (next_timer w) cs (items report) es (now w').
Proof.
  destruct (GET_loop_cycle cs [] w) as (new & es & w' & Hrun & Hlog & Hcyc).
  exists (mkReport new), es, w'. split; [| now split].
  unfold GET, mbind, M_bind, mret, M_ret. now rewrite Hrun.
Qed.

Lemma Cycle_length n t k cs its es t' :
  Cycle net n t k cs its es t' -> length its = length cs.
Proof. induction 1; cbn; congruence. Qed.

Lemma Cycle_ids n t k cs its es t' :
  Cycle net n t k cs its es t' -> item_id <$> its = id <$> cs.
Proof. induction 1; cbn; congruence. Qed.

Lemma Cycle_lookup n t k cs its es t' :
  Cycle net n t k cs its es t' ->
  forall (i : nat) (c : Connector), cs !! i = Some c ->
  exists it t0 k0 ev t1,
    its !! i = Some it /\
    item_id it = id c /\ item_name it = name c /\ item_url it = url c /\
    Probed (net (n + i)%nat (healthUrl c)) t0 k0
           (item_ok it) (item_status_code it) (item_latency_ms it) ev t1.
Proof.
  induction 1 as [| n t k c0 cs it ev t' its es t'' Hid Hname Hurl Hat Hp Hcyc IH];
    intros i c Hi.
  - discriminate.
  - destruct i as [| i]; cbn in Hi.
    + injection Hi as <-. exists it, t, k, ev, t'.
      rewrite Nat.add_0_r. now repeat split.
    + destruct (IH i c Hi) as (it' & t0 & k0 & ev' & t1 & Hl & Hrest).
      exists it', t0, k0, ev', t1. split; [exact Hl |].
      now replace (n + S i)%nat with (S n + i)%nat by lia.
Qed.

Lemma Cycle_issued n t k cs its es t' :
  Cycle net n t k cs its es t' ->
  issued es = (fun c => ("GET", healthUrl c)) <$> cs.
Proof.
  induction 1 as [| n t k c0 cs it ev t' its es t'' Hid Hname Hurl Hat Hp Hcyc IH];
    [reflexivity |].
  destruct Hp; cbn; now rewrite IH.
Qed.

Lemma Probed_settles o t k b s l ev t' :
  Probed o t k b s l ev t' -> in_flight 1 ev = 0%nat.
Proof. now destruct 1. Qed.

Lemma Cycle_peak n t k cs its es t' :
  Cycle net n t k cs its es t' ->
  (peak 0 es <= 1)%nat /\ flight_after 0 es = 0%nat.
Proof.
  induction 1 as [| n t k c0 cs it ev t' its es t'' Hid Hname Hurl Hat Hp Hcyc IH].
  - cbn. lia.
  - cbn. unfold flight_after in *. rewrite (Probed_settles _ _ _ _ _ _ _ _ Hp).
    cbn. split; [lia | tauto].
Qed.
End CycleFacts.

(** ** Auxiliary facts *)

Lemma Response_ok_spec (st : Z) :
  Response_ok (mkResponse st) = true <-> 200 <= st <= 299.
Proof. unfold Response_ok. cbn. rewrite andb_true_iff, !Z.leb_le. tauto. Qed.

Lemma Response_ok_false (st : Z) :
  Response_ok (mkResponse st) = false <-> ~ (200 <= st <= 299).
Proof. rewrite <- Response_ok_spec. now destruct (Response_ok _). Qed.

Lemma Probed_inv o t k b s l ev t' :
  Probed o t k b s l ev t' ->
  (exists st e, o = Responds st e /\ e < 4000 /\
                b = Response_ok (mkResponse st) /\ s = Some st /\ l = Some e) \/
  (b = false /\ s = None /\ l = None /\
   ((exists e, o = Fails e /\ e < 4000) \/ settles_within o 4000 = false)).
Proof.
  destruct 1 as [st e Ho He | e Ho He | Ho].
  - left. now exists st, e.
  - right. repeat split. left. now exists e.
  - right. repeat split. now right.
Qed.

Lemma strip_trailing_slash_app (s : string) :
  strip_trailing_slash (s +:+ "/") = s.
Proof.
  induction s as [| c s IH]; [reflexivity |].
  destruct s as [| c' s']; [reflexivity |].
  change (String c (String c' s') +:+ "/")
    with (String c (String c' s' +:+ "/")).
  change (String c' s' +:+ "/") with (String c' (s' +:+ "/")) in *.
  cbn [strip_trailing_slash] in *. now rewrite IH.
Qed.

Lemma strip_trailing_slash_cases (s : string) :
  strip_trailing_slash s = s \/ s = strip_trailing_slash s +:+ "/".
Proof.
  induction s as [| c s IH]; [now left |].
  destruct s as [| c' s'].
  - cbn. destruct (Ascii.eqb_spec c "/"%char) as [-> |]; [now right | now left].
  - change (strip_trailing_slash (String c (String c' s')))
      with (String c (strip_trailing_slash (String c' s'))).
    destruct IH as [IH | IH].
    + left. now rewrite IH.
    + right.
      change (String c (strip_trailing_slash (String c' s')) +:+ "/")
        with (String c (strip_trailing_slash (String c' s') +:+ "/")).
      now rewrite <- IH.
Qed.

Lemma causal_net_mixed : causal net_mixed.
Proof.
  intros n u. unfold net_mixed.
  destruct n as [| [| [| [| n]]]]; cbn; lia.
Defined.

(** ** The claims *)

(** C1: for every catalog and every behaviour of the network, one cycle
    answers with a report whose [i]-th item carries the id of the [i]-th
    connector: the items are in catalog order whatever the probes' timing. *)
Theorem report_in_registry_order (net : Network) (connectors : list Connector)
    (w : World) :
  exists report w',
    GET net connectors w = (Normal report, w') /\
    forall i : nat, item_id <$> (items report !! i) = id <$> (connectors !! i).
Proof.
  destruct (GET_cycle net connectors w) as (report & es & w' & Hrun & _ & Hcyc).
  exists report, w'. split; [exact Hrun |].
  intros i. rewrite <- !list_lookup_fmap.
  now rewrite (Cycle_ids _ _ _ _ _ _ _ _ Hcyc).
Qed.

(** C2: a cycle over a catalog of [N] connectors answers with exactly [N]
    items, whatever the probes do; over the empty catalog it answers with the
    empty list and raises nothing. *)
Theorem report_has_one_item_per_connector (net : Network)
    (connectors : list Connector) (w : World) :
  (exists report w',
     GET net connectors w = (Normal report, w') /\
     length (items report) = length connectors) /\
  GET net [] w = (Normal (mkReport []), w).
Proof.
  split; [| reflexivity].
  destruct (GET_cycle net connectors w) as (report & es & w' & Hrun & _ & Hcyc).
  exists report, w'. split; [exact Hrun |].
  exact (Cycle_length _ _ _ _ _ _ _ _ Hcyc).
Qed.

(** The item a cycle reports for the connector at position [i], with what its
    probe did. *)
Lemma GET_item (net : Network) (cs : list Connector) (w : World)
    (i : nat) (c : Connector) :
  cs !! i = Some c ->
  exists report w' it t0 k0 ev t1,
    GET net cs w = (Normal report, w') /\
    items report !! i = Some it /\
    item_id it = id c /\ item_name it = name c /\ item_url it = url c /\
    Probed (net (requests w + i)%nat (healthUrl c)) t0 k0
           (item_ok it) (item_status_code it) (item_latency_ms it) ev t1.
Proof.
  intros Hi.
  destruct (GET_cycle net cs w) as (report & es & w' & Hrun & _ & Hcyc).
  destruct (Cycle_lookup _ _ _ _ _ _ _ _ Hcyc i c Hi)
    as (it & t0 & k0 & ev & t1 & Hit & Hrest).
  exists report, w', it, t0, k0, ev, t1. now split.
Qed.

Lemma Probed_no_response o :
  (exists e, o = Fails e /\ e < 4000) \/ settles_within o 4000 = false ->
  no_response o 4000.
Proof.
  intros [(e & -> & _) | Hlate]; [exact I |].
  destruct o as [st e | e |]; cbn in *;
    [now apply Z.ltb_ge in Hlate | exact I | exact I].
Qed.

Lemma Probed_Item_invariant (o : Outcome) t k it ev t' :
  Probed o t k (item_ok it) (item_status_code it) (item_latency_ms it) ev t' ->
  Item_invariant o it.
Proof.
  intros Hp.
  destruct (Probed_inv _ _ _ _ _ _ _ _ Hp)
    as [(st & e & -> & He & Hok & Hst & Hlat) | (Hok & Hst & Hlat & Hwhy)].
  - split; [| split].
    + intros Hb. rewrite Hb in Hok. symmetry in Hok.
      apply Response_ok_spec in Hok. now exists st, e.
    + intros Hb. rewrite Hb in Hok. symmetry in Hok.
      apply Response_ok_false in Hok. right. now exists st, e.
    + cbn. intros Hpos l Hl. rewrite Hlat in Hl. now injection Hl as <-.
  - split; [| split].
    + congruence.
    + intros _. left. split; [now apply Probed_no_response | now split].
    + intros _ l Hl. congruence.
Qed.

(** Every item of a report stands at the position of a connector of the
    catalog and comes from the probe of that connector. *)
Lemma GET_items_probed (net : Network) (cs : list Connector) (w : World) :
  exists report w',
    GET net cs w = (Normal report, w') /\
    forall (i : nat) (it : Item),
      items report !! i = Some it ->
      exists c t0 k0 ev t1,
        cs !! i = Some c /\
        Probed (net (requests w + i)%nat (healthUrl c)) t0 k0
               (item_ok it) (item_status_code it) (item_latency_ms it) ev t1.
Proof.
  destruct (GET_cycle net cs w) as (report & es & w' & Hrun & _ & Hcyc).
  exists report, w'. split; [exact Hrun |].
  intros i it Hit.
  assert (Hlt : (i < length cs)%nat).
  { rewrite <- (Cycle_length _ _ _ _ _ _ _ _ Hcyc). eapply lookup_lt_Some, Hit. }
  destruct (lookup_lt_is_Some_2 cs i Hlt) as [c Hc].
  destruct (Cycle_lookup _ _ _ _ _ _ _ _ Hcyc i c Hc)
    as (it' & t0 & k0 & ev & t1 & Hit' & _ & _ & _ & Hp).
  rewrite Hit in Hit'. injection Hit' as <-.
  now exists c, t0, k0, ev, t1.
Qed.

(** C3 (as amended): every item of a report stands for the connector at its
    position and, read against what the remote end did with the request of
    that connector, satisfies: [ok = true] implies that a response was
    received within the 4000 ms, that the status is its status, from 200 to
    299, and the latency its elapsed time; [ok = false] implies either that
    no response was received and status and latency are both null, or that a
    response was received within the 4000 ms, that the status is its status,
    outside 200 to 299, and the latency its elapsed time; and the latency is
    not negative when the clock did not run backwards during the probe. *)
Theorem report_items_keep_invariant (net : Network) (connectors : list Connector)
    (w : World) :
  exists report w',
    GET net connectors w = (Normal report, w') /\
    forall (i : nat) (it : Item),
      items report !! i = Some it ->
      exists c,
        connectors !! i = Some c /\
        Item_invariant (net (requests w + i)%nat (healthUrl c)) it.
Proof.
  destruct (GET_items_probed net connectors w) as (report & w' & Hrun & Hall).
  exists report, w'. split; [exact Hrun |].
  intros i it Hit.
  destruct (Hall i it Hit) as (c & t0 & k0 & ev & t1 & Hc & Hp).
  exists c. split; [exact Hc |].
  exact (Probed_Item_invariant _ _ _ _ _ _ Hp).
Qed.

Lemma report_items_keep_invariant_witness :
  exists report w' it,
    GET net_mixed catalog boot = (Normal report, w') /\
    items report !! 1%nat = Some it /\
    item_ok it = false /\
    item_status_code it = Some 404 /\
    item_latency_ms it = Some 30 /\
    Item_invariant (Responds 404 30) it.
Proof.
  destruct (report_items_keep_invariant net_mixed catalog boot)
    as (report & w' & Hrun & Hall).
  vm_compute in Hrun. injection Hrun as <- <-.
  eexists _, _, _. split; [vm_compute; reflexivity |].
  split; [reflexivity |].
  destruct (Hall 1%nat _ eq_refl) as (c & [= <-] & Hinv).
  repeat (split; [reflexivity |]). exact Hinv.
Defined.

(** C3 (as stated) fails: the connector that answers 404 is reported with
    [ok = false] and yet with status 404 and latency 30, not with nulls. *)
Lemma unhealthy_item_keeps_status :
  exists report w' it,
    GET net_mixed catalog boot = (Normal report, w') /\
    items report !! 1%nat = Some it /\
    item_ok it = false /\
    item_status_code it = Some 404 /\
    item_latency_ms it = Some 30 /\
    ~ ProbeResult_invariant it.
Proof.
  eexists _, _, _. split; [vm_compute; reflexivity |].
  split; [reflexivity |]. repeat split.
  intros [_ Hfalse]. destruct (Hfalse eq_refl) as [Hst _]. discriminate Hst.
Qed.

(** C4 (as amended): a probe whose response arrives before the timeout is
    reported with the received status and the elapsed time, and with
    [ok = true] exactly when the status is from 200 to 299. *)
Theorem response_in_time_is_reported (net : Network) (connectors : list Connector)
    (w : World) (i : nat) (c : Connector) (st e : Z) :
  connectors !! i = Some c ->
  net (requests w + i)%nat (healthUrl c) = Responds st e ->
  e < 4000 ->
  exists report w' it,
    GET net connectors w = (Normal report, w') /\
    items report !! i = Some it /\
    item_id it = id c /\
    item_ok it = bool_decide (200 <= st <= 299) /\
    item_status_code it = Some st /\
    item_latency_ms it = Some e.
Proof.
  intros Hi Ho He.
  destruct (GET_item net connectors w i c Hi)
    as (report & w' & it & t0 & k0 & ev & t1 & Hrun & Hit & Hid & _ & _ & Hp).
  exists report, w', it. repeat (split; [assumption |]).
  rewrite Ho in Hp.
  destruct (Probed_inv _ _ _ _ _ _ _ _ Hp)
    as [(st' & e' & [= <- <-] & _ & Hok & Hst & Hlat)
       | (_ & _ & _ & [(e' & [=] & _) | Hlate])].
  - repeat split; try assumption. rewrite Hok.
    destruct (Response_ok (mkResponse st)) eqn:Hb; symmetry.
    + apply bool_decide_eq_true. now apply Response_ok_spec.
    + apply bool_decide_eq_false. now apply Response_ok_false.
  - cbn in Hlate. apply Z.ltb_ge in Hlate. lia.
Qed.

Lemma response_in_time_is_reported_witness :
  exists report w' it,
    GET net_mixed catalog boot = (Normal report, w') /\
    items report !! 0%nat = Some it /\
    item_id it = "a" /\
    item_ok it = bool_decide (200 <= 200 <= 299) /\
    item_status_code it = Some 200 /\
    item_latency_ms it = Some 120.
Proof.
  apply (response_in_time_is_reported net_mixed catalog boot 0
           (mkConnector "a" "A" "http://a/") 200 120);
    [reflexivity | reflexivity | lia].
Defined.

(** C4 (as stated) fails: a response with status 304, inside 200 to 399 and
    received after 10 ms, is reported with [ok = false]. *)
Lemma redirect_status_is_not_ok :
  net_redirect 0%nat (healthUrl (mkConnector "a" "A" "http://a/")) = Responds 304 10 /\
  10 < 4000 /\ 200 <= 304 <= 399 /\
  exists report w' it,
    GET net_redirect [mkConnector "a" "A" "http://a/"] boot = (Normal report, w') /\
    items report !! 0%nat = Some it /\
    item_ok it <> true /\
    item_status_code it = Some 304.
Proof.
  split; [reflexivity |]. split; [lia |]. split; [lia |].
  eexists _, _, _. split; [vm_compute; reflexivity |].
  split; [reflexivity |]. split; [discriminate | reflexivity].
Qed.

(** C5: a probe that receives, before the timeout, a response whose status is
    outside 200 to 399 is reported with [ok = false] and with that status;
    and an item whose status or latency is null comes from a probe that
    received no response (a timeout or a network failure). *)
Theorem failing_status_is_preserved (net : Network) (connectors : list Connector)
    (w : World) (i : nat) (c : Connector) :
  connectors !! i = Some c ->
  exists report w' it,
    GET net connectors w = (Normal report, w') /\
    items report !! i = Some it /\
    (forall st e,
        net (requests w + i)%nat (healthUrl c) = Responds st e ->
        e < 4000 -> ~ (200 <= st <= 399) ->
        item_ok it = false /\ item_status_code it = Some st) /\
    (item_status_code it = None \/ item_latency_ms it = None ->
     no_response (net (requests w + i)%nat (healthUrl c)) 4000).
Proof.
  intros Hi.
  destruct (GET_item net connectors w i c Hi)
    as (report & w' & it & t0 & k0 & ev & t1 & Hrun & Hit & _ & _ & _ & Hp).
  exists report, w', it. repeat (split; [assumption |]).
  destruct (Probed_inv _ _ _ _ _ _ _ _ Hp)
    as [(st' & e' & Ho & He' & Hok & Hst & Hlat)
       | (Hok & Hst & Hlat & [(e' & Ho & He') | Hlate])].
  - split.
    + intros st e Ho' _ Hout. rewrite Ho in Ho'. injection Ho' as <- <-.
      split; [| exact Hst]. rewrite Hok. apply Response_ok_false. lia.
    + intros [Hnull | Hnull]; congruence.
  - split.
    + intros st e Ho'. congruence.
    + intros _. now rewrite Ho.
  - split.
    + intros st e Ho' He _. rewrite Ho' in Hlate. cbn in Hlate.
      apply Z.ltb_ge in Hlate. lia.
    + intros _. destruct (net (requests w + i)%nat (healthUrl c)); cbn in *;
        [now apply Z.ltb_ge in Hlate | exact I | exact I].
Qed.

Lemma failing_status_is_preserved_witness :
  exists report w' it,
    GET net_mixed catalog boot = (Normal report, w') /\
    items report !! 1%nat = Some it /\
    (forall st e,
        net_mixed (requests boot + 1)%nat
                  (healthUrl (mkConnector "b" "B" "http://b")) = Responds st e ->
        e < 4000 -> ~ (200 <= st <= 399) ->
        item_ok it = false /\ item_status_code it = Some st) /\
    (item_status_code it = None \/ item_latency_ms it = None ->
     no_response (net_mixed (requests boot + 1)%nat
                            (healthUrl (mkConnector "b" "B" "http://b"))) 4000).
Proof.
  apply (failing_status_is_preserved net_mixed catalog boot 1
           (mkConnector "b" "B" "http://b")).
  reflexivity.
Defined.

(** C6: whatever each probe does, the cycle completes with a report and
    raises nothing; the connector at each position gets its item, and a probe
    that fails (timeout, network failure, status outside 200 to 299) gets an
    item with [ok = false]. *)
Theorem failures_degrade_into_items (net : Network) (connectors : list Connector)
    (w : World) :
  exists report w',
    GET net connectors w = (Normal report, w') /\
    forall (i : nat) (c : Connector),
      connectors !! i = Some c ->
      exists it,
        items report !! i = Some it /\
        item_id it = id c /\
        (probe_fails (net (requests w + i)%nat (healthUrl c)) 4000 ->
         item_ok it = false).
Proof.
  destruct (GET_cycle net connectors w) as (report & es & w' & Hrun & _ & Hcyc).
  exists report, w'. split; [exact Hrun |].
  intros i c Hi.
  destruct (Cycle_lookup _ _ _ _ _ _ _ _ Hcyc i c Hi)
    as (it & t0 & k0 & ev & t1 & Hit & Hid & _ & _ & Hp).
  exists it. repeat (split; [assumption |]).
  destruct (Probed_inv _ _ _ _ _ _ _ _ Hp)
    as [(st & e & -> & He & Hok & _) | (Hok & _)]; [| now intros _].
  cbn. intros [Hlate | Hst]; [lia |].
  rewrite Hok. now apply Response_ok_false.
Qed.

Lemma failures_degrade_into_items_witness :
  exists report w',
    GET net_mixed catalog boot = (Normal report, w') /\
    (exists it, items report !! 2%nat = Some it /\ item_id it = "c" /\
                item_ok it = false) /\
    (exists it, items report !! 3%nat = Some it /\ item_id it = "d" /\
                item_ok it = false).
Proof.
  destruct (failures_degrade_into_items net_mixed catalog boot)
    as (report & w' & Hrun & Hall).
  exists report, w'. split; [exact Hrun |]. split.
  - destruct (Hall 2%nat (mkConnector "c" "C" "http://c//") eq_refl)
      as (it & Hit & Hid & Hfail).
    exists it. repeat split; [exact Hit | exact Hid | exact (Hfail I)].
  - destruct (Hall 3%nat (mkConnector "d" "D" "") eq_refl)
      as (it & Hit & Hid & Hfail).
    exists it. repeat split; [exact Hit | exact Hid | exact (Hfail I)].
Defined.

(** C7 (as amended): the probes of a cycle go out one at a time, in catalog
    order; a probe starts only after the one before it has settled, so at no
    point of the trace is more than one request in flight, and none is left
    in flight at the end. *)
Theorem probes_run_one_at_a_time (net : Network) (connectors : list Connector)
    (w : World) :
  exists report es w',
    GET net connectors w = (Normal report, w') /\
    log w' = log w ++ es /\
    issued es = (fun c => ("GET", healthUrl c)) <$> connectors /\
    (peak 0 es <= 1)%nat /\
    flight_after 0 es = 0%nat.
Proof.
  destruct (GET_cycle net connectors w) as (report & es & w' & Hrun & Hlog & Hcyc).
  exists report, es, w'. repeat (split; [assumption |]).
  split; [exact (Cycle_issued _ _ _ _ _ _ _ _ Hcyc) |].
  exact (Cycle_peak _ _ _ _ _ _ _ _ Hcyc).
Qed.

(** C7 (as stated) fails: with two connectors that each answer after 100 ms,
    the second request goes out at 1100, when the first has settled, the
    cycle takes 200 ms, and never are two requests in flight. *)
Lemma probes_are_not_concurrent :
  exists report w',
    GET net_slow pair_catalog boot = (Normal report, w') /\
    log w' = [ EvSetTimeout 1000 0 4000;
               EvRequest 1000 "GET" "http://slow/health";
               EvResponse 1100 200;
               EvClearTimeout 1100 0;
               EvSetTimeout 1100 1 4000;
               EvRequest 1100 "GET" "http://fast/health";
               EvResponse 1200 200;
               EvClearTimeout 1200 1 ] /\
    now w' = 1200 /\
    ~ dispatched_concurrently (log w').
Proof.
  eexists _, _. split; [vm_compute; reflexivity |].
  split; [reflexivity |]. split; [reflexivity |].
  unfold dispatched_concurrently. cbn. lia.
Qed.

(** C8: for every connector the cycle issues exactly one request, a GET, to
    the URL of the connector with a final slash removed, followed by
    [/health]; the requests go out in catalog order. *)
Theorem one_GET_per_connector (net : Network) (connectors : list Connector)
    (w : World) :
  (exists report es w',
     GET net connectors w = (Normal report, w') /\
     log w' = log w ++ es /\
     issued es =
       (fun c => ("GET", strip_trailing_slash (url c) +:+ "/health")) <$> connectors) /\
  (forall s, strip_trailing_slash (s +:+ "/") = s) /\
  (forall s, strip_trailing_slash s = s \/ s = strip_trailing_slash s +:+ "/").
Proof.
  split; [| split; [exact strip_trailing_slash_app | exact strip_trailing_slash_cases]].
  destruct (GET_cycle net connectors w) as (report & es & w' & Hrun & Hlog & Hcyc).
  exists report, es, w'. repeat (split; [assumption |]).
  exact (Cycle_issued _ _ _ _ _ _ _ _ Hcyc).
Qed.

(** C9: a call of [fetchWithTimeout] without a timeout argument arms a timer
    of 4000 ms at the moment the request starts, issues exactly one request,
    and leaves no timer armed; when the remote end does not settle the request
    within 4000 ms, the request is aborted at 4000 ms and the call rejects
    with the abort error. *)
Theorem single_attempt_with_default_timeout (net : Network) (u : string)
    (w : World) :
  exists r ev w',
    fetchWithTimeout net u None w = (r, w') /\
    log w' = log w ++ [ EvSetTimeout (now w) (next_timer w) 4000;
                        EvRequest (now w) "GET" u;
                        ev;
                        EvClearTimeout (now w') (next_timer w) ] /\
    issued [ev] = [] /\
    requests w' = S (requests w) /\
    timers w' !! next_timer w = None /\
    (settles_within (net (requests w) u) 4000 = false ->
     r = Throws AbortError /\
     ev = EvAbort (now w + 4000) (next_timer w) /\
     now w' = now w + 4000).
Proof.
  destruct (fetchWithTimeout_spec net u None w)
    as (r & ev & w' & Hrun & Hf & Hreq & _ & Htim & Hlog).
  exists r, ev, w'. cbn [default] in Hf, Hlog.
  change (timer_delay 4000) with 4000 in Hf.
  repeat (split; [first [assumption | now destruct Hf] |]).
  intros Hlate.
  assert (Hmax : Z.max (now w) (now w + 4000) = now w + 4000) by lia.
  inversion Hf as [st e Ho He Hr Hev Hnow | e Ho He Hr Hev Hnow | Ho Hr Hev Hnow].
  - rewrite Ho in Hlate. cbn in Hlate. apply Z.ltb_ge in Hlate. lia.
  - rewrite Ho in Hlate. cbn in Hlate. apply Z.ltb_ge in Hlate. lia.
  - rewrite Hmax in *. now repeat split.
Qed.

Lemma single_attempt_with_default_timeout_witness :
  exists r ev w',
    fetchWithTimeout (fun _ _ => Hangs) "http://d/health" None boot = (r, w') /\
    log w' = [ EvSetTimeout 1000 0 4000;
               EvRequest 1000 "GET" "http://d/health";
               ev;
               EvClearTimeout (now w') 0 ] /\
    r = Throws AbortError /\
    ev = EvAbort 5000 0 /\
    now w' = 5000.
Proof.
  destruct (single_attempt_with_default_timeout (fun _ _ => Hangs)
              "http://d/health" boot)
    as (r & ev & w' & Hrun & Hlog & _ & _ & _ & Hlate).
  destruct (Hlate eq_refl) as (Hr & Hev & Hnow).
  exists r, ev, w'. repeat split; assumption.
Defined.

Lemma Probed_latency_is_elapsed (o : Outcome) t k it ev t' :
  Probed o t k (item_ok it) (item_status_code it) (item_latency_ms it) ev t' ->
  latency_is_elapsed o it.
Proof.
  intros Hp. unfold latency_is_elapsed.
  destruct (Probed_inv _ _ _ _ _ _ _ _ Hp)
    as [(st & e & -> & He & Hok & Hst & Hlat) | (Hok & Hst & Hlat & _)];
    rewrite Hst, Hlat.
  - split; [split; discriminate |]. intros l [= <-].
    split; [now exists st | now cbn].
  - split; [tauto | discriminate].
Qed.

(** C10 (as amended): in every item of a report the status is null exactly
    when the latency is null, and a latency that is not null is the elapsed
    time, between the two readings of the clock, of a response received
    within the 4000 ms; it is not negative when the clock did not run
    backwards between those readings.  This covers the items with
    [ok = false] that come from a received response. *)
Theorem status_and_latency_are_paired (net : Network) (connectors : list Connector)
    (w : World) :
  exists report w',
    GET net connectors w = (Normal report, w') /\
    forall (i : nat) (it : Item),
      items report !! i = Some it ->
      exists c,
        connectors !! i = Some c /\
        latency_is_elapsed (net (requests w + i)%nat (healthUrl c)) it.
Proof.
  destruct (GET_items_probed net connectors w) as (report & w' & Hrun & Hall).
  exists report, w'. split; [exact Hrun |].
  intros i it Hit.
  destruct (Hall i it Hit) as (c & t0 & k0 & ev & t1 & Hc & Hp).
  exists c. split; [exact Hc |].
  exact (Probed_latency_is_elapsed _ _ _ _ _ _ Hp).
Qed.

Lemma status_and_latency_are_paired_witness :
  exists report w' it,
    GET net_mixed catalog boot = (Normal report, w') /\
    items report !! 1%nat = Some it /\
    item_ok it = false /\
    latency_is_elapsed (Responds 404 30) it /\
    0 <= 30.
Proof.
  destruct (status_and_latency_are_paired net_mixed catalog boot)
    as (report & w' & Hrun & Hall).
  vm_compute in Hrun. injection Hrun as <- <-.
  eexists _, _, _. split; [vm_compute; reflexivity |].
  split; [reflexivity |].
  destruct (Hall 1%nat _ eq_refl) as (c & [= <-] & Hpaired).
  split; [reflexivity |]. split; [exact Hpaired |].
  destruct Hpaired as [_ Hlat].
  destruct (Hlat 30 eq_refl) as [_ Hpos]. apply Hpos. cbn. lia.
Defined.

(** C10 (as stated) fails: when the wall clock is set back during the probe,
    so that the second reading of the clock is 5 ms before the first, the
    item of a connector that answered 200 carries the latency -5. *)
Lemma negative_latency_is_reported :
  exists report w' it,
    GET net_backwards [mkConnector "a" "A" "http://a/"] boot = (Normal report, w') /\
    items report !! 0%nat = Some it /\
    item_ok it = true /\
    item_status_code it = Some 200 /\
    item_latency_ms it = Some (-5) /\
    ~ fields_paired it.
Proof.
  eexists _, _, _. split; [vm_compute; reflexivity |].
  split; [reflexivity |]. repeat (split; [reflexivity |]).
  intros [_ Hpos]. specialize (Hpos (-5) eq_refl). lia.
Qed.

(** ** Further properties of the route *)

Lemma Fetched_not_pending o ms t k r ev t' :
  Fetched o ms t k r ev t' -> r <> Pending.
Proof. now destruct 1. Qed.

(** X1: whatever the remote end does, and whatever timeout the caller passes,
    a call of [fetchWithTimeout] settles, the timeout in force being the
    delay the platform arms for the one passed (a timeout below 1 or above
    2^31 - 1 is armed as 1 ms): it resolves exactly when a response arrives
    strictly within the timeout, rejects with the network error exactly when
    the request fails within the timeout, and rejects with the abort error
    exactly when nothing settles the request within the timeout; it never
    stays pending. *)
Theorem fetchWithTimeout_always_settles (net : Network) (u : string)
    (timeoutMs : option Z) (w : World) :
  exists r w',
    fetchWithTimeout net u timeoutMs w = (r, w') /\
    r <> Pending /\
    (forall a, r = Normal a <->
       exists st e, net (requests w) u = Responds st e /\
                    e < timer_delay (default 4000 timeoutMs) /\
                    a = mkFetchResult (Response_ok (mkResponse st)) st e) /\
    (r = Throws TypeError <->
       exists e, net (requests w) u = Fails e /\
                 e < timer_delay (default 4000 timeoutMs)) /\
    (r = Throws AbortError <->
       settles_within (net (requests w) u)
                      (timer_delay (default 4000 timeoutMs)) = false).
Proof.
  destruct (fetchWithTimeout_spec net u timeoutMs w)
    as (r & ev & w' & Hrun & Hf & _).
  exists r, w'. split; [exact Hrun |].
  split; [exact (Fetched_not_pending _ _ _ _ _ _ _ Hf) |].
  set (ms := timer_delay (default 4000 timeoutMs)) in *.
  destruct Hf as [st e Ho He | e Ho He | Hlate].
  - assert (Hin : settles_within (net (requests w) u) ms = true)
      by (rewrite Ho; cbn; now apply Z.ltb_lt).
    repeat split; try discriminate; try congruence.
    + intros [= <-]. now exists st, e.
    + intros (st' & e' & Ho' & _ & ->). congruence.
    + intros (e' & Ho' & _). congruence.
  - assert (Hin : settles_within (net (requests w) u) ms = true)
      by (rewrite Ho; cbn; now apply Z.ltb_lt).
    repeat split; try discriminate; try congruence.
    + intros (st' & e' & Ho' & _). congruence.
    + intros _. now exists e.
  - repeat split; try discriminate; try congruence.
    + intros (st' & e' & Ho' & He' & _). rewrite Ho' in Hlate. cbn in Hlate.
      apply Z.ltb_ge in Hlate. lia.
    + intros (e' & Ho' & He'). rewrite Ho' in Hlate. cbn in Hlate.
      apply Z.ltb_ge in Hlate. lia.
Qed.

Lemma fetchWithTimeout_always_settles_witness :
  (exists r w',
     fetchWithTimeout net_mixed "http://a/health" (Some 25) boot = (r, w') /\
     r = Throws AbortError) /\
  (exists r w',
     fetchWithTimeout net_mixed "http://a/health" (Some 2147483648) boot = (r, w') /\
     r = Throws AbortError).
Proof.
  split.
  - destruct (fetchWithTimeout_always_settles net_mixed "http://a/health"
                (Some 25) boot)
      as (r & w' & Hrun & _ & _ & _ & Habort).
    exists r, w'. split; [exact Hrun |]. apply Habort. reflexivity.
  - destruct (fetchWithTimeout_always_settles net_mixed "http://a/health"
                (Some 2147483648) boot)
      as (r & w' & Hrun & _ & _ & _ & Habort).
    exists r, w'. split; [exact Hrun |]. apply Habort. reflexivity.
Defined.

Lemma fetchWithTimeout_timers (net : Network) (u : string) (timeoutMs : option Z)
    (w : World) :
  forall r w',
    fetchWithTimeout net u timeoutMs w = (r, w') ->
    timers w' = delete (next_timer w) (timers w) /\
    next_timer w' = S (next_timer w).
Proof.
  intros r w'.
  unfold fetchWithTimeout, try_finally, fetch.
  unfold mbind, M_bind, mret, M_ret, setTimeout_abort, Date_now, clearTimeout.
  cbn [init_signal init_method now next_timer timers requests log mbind option_bind].
  rewrite lookup_insert_eq.
  destruct (net (requests w) u) as [st e | e |];
    try destruct (before_deadline _ _);
    unfold abort_or_pending, emit, set_now;
    cbn [now next_timer timers requests log];
    intros [= <- <-]; cbn [now next_timer timers requests log];
    now rewrite ?delete_delete_eq, delete_insert_eq.
Qed.

Lemma probe_timers (net : Network) (c : Connector) (acc : list Item) (w : World) :
  forall r w',
    probe net c acc w = (r, w') ->
    timers w' = delete (next_timer w) (timers w) /\
    next_timer w' = S (next_timer w).
Proof.
  intros r w'. unfold probe, try_catch, mbind, M_bind, mret, M_ret,
    Date_toISOString, Date_now.
  destruct (fetchWithTimeout net (healthUrl c) None w) as [[a | e |] w1] eqn:Hrun;
    intros [= <- <-]; exact (fetchWithTimeout_timers _ _ _ _ _ _ Hrun).
Qed.

Lemma GET_loop_timers (net : Network) (cs : list Connector) :
  forall (acc : list Item) (w : World) r w',
    GET_loop net cs acc w = (r, w') ->
    wf_world w ->
    timers w' = timers w /\ wf_world w'.
Proof.
  induction cs as [| c cs IH]; intros acc w r w'.
  - intros [= <- <-]. now split.
  - cbn [GET_loop]. unfold mbind, M_bind at 1.
    destruct (probe net c acc w) as [[acc1 | e |] w1] eqn:Hp;
      destruct (probe_timers _ _ _ _ _ _ Hp) as [Htim Hnext]; intros Hrun Hwf.
    + assert (Hsame : timers w1 = timers w)
        by (rewrite Htim; apply delete_id, Hwf; lia).
      assert (Hwf1 : wf_world w1).
      { intros k Hk. rewrite Hsame. apply Hwf. rewrite Hnext in Hk. lia. }
      destruct (IH _ _ _ _ Hrun Hwf1) as [Hsame2 Hwf2].
      split; [congruence | exact Hwf2].
    + destruct (probe_spec net c acc w) as (it & ev & w2 & Hp' & _). congruence.
    + destruct (probe_spec net c acc w) as (it & ev & w2 & Hp' & _). congruence.
Qed.

(** X2: a cycle leaves no timer behind: every timer a probe arms is cleared
    (or has fired) when the probe ends, so the armed timers after [GET] are
    those before it. *)
Theorem GET_leaves_no_timer (net : Network) (connectors : list Connector)
    (w : World) :
  wf_world w ->
  exists report w',
    GET net connectors w = (Normal report, w') /\
    timers w' = timers w /\
    wf_world w'.
Proof.
  intros Hwf.
  destruct (GET_cycle net connectors w) as (report & es & w' & Hrun & _).
  exists report, w'. split; [exact Hrun |].
  unfold GET, mbind, M_bind, mret, M_ret in Hrun.
  destruct (GET_loop net connectors [] w) as [[its | e |] w1] eqn:Hloop;
    try discriminate.
  injection Hrun as _ <-.
  exact (GET_loop_timers _ _ _ _ _ _ Hloop Hwf).
Qed.

Lemma wf_world_boot : wf_world boot.
Proof. intros k _. apply lookup_empty. Defined.

Lemma GET_leaves_no_timer_witness :
  wf_world boot /\
  exists report w',
    GET net_mixed catalog boot = (Normal report, w') /\
    timers w' = timers boot /\
    wf_world w'.
Proof.
  split; [exact wf_world_boot |].
  exact (GET_leaves_no_timer net_mixed catalog boot wf_world_boot).
Defined.

Lemma probe_duration_le (o : Outcome) : probe_duration o <= 4000.
Proof.
  destruct o as [st e | e |]; cbn; try destruct (Z.ltb_spec e 4000); lia.
Qed.

Lemma Probed_duration o t k b s l ev t' :
  Probed o t k b s l ev t' -> t' = t + probe_duration o.
Proof.
  destruct 1 as [st e -> He | e -> He | Hlate]; cbn.
  - apply Z.ltb_lt in He. now rewrite He.
  - apply Z.ltb_lt in He. now rewrite He.
  - destruct o as [st e | e |]; cbn in *; now rewrite ?Hlate.
Qed.

Lemma Cycle_duration net n t k cs its es t' :
  Cycle net n t k cs its es t' ->
  t' = t + cycle_duration net n cs /\
  cycle_duration net n cs <= 4000 * Z.of_nat (length cs).
Proof.
  induction 1 as [| n t k c0 cs it ev t' its es t'' Hid Hname Hurl Hat Hp Hcyc IH].
  - cbn. lia.
  - cbn [cycle_duration length]. apply Probed_duration in Hp.
    pose proof (probe_duration_le (net n (healthUrl c0))). lia.
Qed.

(** X3: the probes run one after the other, so a cycle ends no earlier than
    the sum of the times of its probes after it began, each probe taking what
    the remote end needs when it settles within the 4000 ms of the timer and
    4000 ms otherwise; connectors that all hang hold the route for at least
    4000 ms each. *)
Theorem GET_takes_at_least_the_sum (net : Network) (connectors : list Connector)
    (w : World) :
  exists report w',
    GET net connectors w = (Normal report, w') /\
    now w + cycle_duration net (requests w) connectors <= now w' /\
    ((forall n u, net n u = Hangs) ->
     now w + 4000 * Z.of_nat (length connectors) <= now w').
Proof.
  destruct (GET_cycle net connectors w) as (report & es & w' & Hrun & _ & Hcyc).
  exists report, w'. split; [exact Hrun |].
  destruct (Cycle_duration _ _ _ _ _ _ _ _ Hcyc) as [Hsum _].
  split; [lia |]. intros Hhang.
  assert (Hall : forall cs n,
             cycle_duration net n cs = 4000 * Z.of_nat (length cs)).
  { induction cs as [| c cs IH]; intros n; [reflexivity |].
    cbn [cycle_duration length]. rewrite Hhang, IH. cbn [probe_duration]. lia. }
  rewrite Hall in Hsum. lia.
Qed.

Lemma GET_takes_at_least_the_sum_witness :
  exists report w',
    GET (fun _ _ => Hangs) pair_catalog boot = (Normal report, w') /\
    now boot + 4000 * Z.of_nat (length pair_catalog) <= now w'.
Proof.
  destruct (GET_takes_at_least_the_sum (fun _ _ => Hangs) pair_catalog boot)
    as (report & w' & Hrun & _ & Hhang).
  exists report, w'. split; [exact Hrun |]. apply Hhang. reflexivity.
Defined.

Lemma Probed_forward o t k b s l ev t' :
  elapsed_nonneg o -> Probed o t k b s l ev t' -> t <= t'.
Proof.
  intros Hpos [st e -> He | e -> He | Hlate]; cbn in Hpos; lia.
Qed.

Lemma Cycle_checked_at net n t k cs its es t' :
  causal net ->
  Cycle net n t k cs its es t' ->
  t <= t' /\
  Forall (fun it => t <= item_checked_at it <= t') its /\
  StronglySorted Z.le (item_checked_at <$> its).
Proof.
  intros Hnet.
  induction 1 as [| n t k c0 cs it ev t' its es t'' Hid Hname Hurl Hat Hp Hcyc IH].
  - repeat split; [lia | constructor | constructor].
  - destruct IH as (Hle & Hall & Hsorted).
    pose proof (Probed_forward _ _ _ _ _ _ _ _ (Hnet n _) Hp) as Hfw.
    split; [lia |]. split.
    + constructor; [lia |].
      eapply Forall_impl; [exact Hall |]. cbn. intros x Hx. lia.
    + cbn [fmap list_fmap]. constructor; [exact Hsorted |].
      apply Forall_fmap. eapply Forall_impl; [exact Hall |].
      cbn. intros x Hx. lia.
Qed.

(** X4: under a clock that does not run backwards, the [checked_at] stamps of
    a report never decrease along the report, and each lies between the
    beginning and the end of the cycle. *)
Theorem checked_at_follows_the_clock (net : Network) (connectors : list Connector)
    (w : World) :
  causal net ->
  exists report w',
    GET net connectors w = (Normal report, w') /\
    StronglySorted Z.le (item_checked_at <$> items report) /\
    Forall (fun it => now w <= item_checked_at it <= now w') (items report).
Proof.
  intros Hnet.
  destruct (GET_cycle net connectors w) as (report & es & w' & Hrun & _ & Hcyc).
  exists report, w'. split; [exact Hrun |].
  destruct (Cycle_checked_at _ _ _ _ _ _ _ _ Hnet Hcyc) as (_ & Hall & Hsorted).
  now split.
Qed.

Lemma checked_at_follows_the_clock_witness :
  causal net_mixed /\
  exists report w',
    GET net_mixed catalog boot = (Normal report, w') /\
    StronglySorted Z.le (item_checked_at <$> items report) /\
    Forall (fun it => now boot <= item_checked_at it <= now w') (items report).
Proof.
  split; [exact causal_net_mixed |].
  exact (checked_at_follows_the_clock net_mixed catalog boot causal_net_mixed).
Defined.

Lemma Cycle_echo net n t k cs its es t' :
  Cycle net n t k cs its es t' ->
  (fun it => (item_id it, item_name it, item_url it)) <$> its =
  (fun c => (id c, name c, url c)) <$> cs.
Proof. induction 1; cbn; congruence. Qed.

(** X5: the report repeats, connector by connector and in catalog order, the
    id, the name and the url of the catalog as they stand: the url keeps its
    final slash, only the probed URL loses it. *)
Theorem report_echoes_the_catalog (net : Network) (connectors : list Connector)
    (w : World) :
  exists report w',
    GET net connectors w = (Normal report, w') /\
    (fun it => (item_id it, item_name it, item_url it)) <$> items report =
    (fun c => (id c, name c, url c)) <$> connectors.
Proof.
  destruct (GET_cycle net connectors w) as (report & es & w' & Hrun & _ & Hcyc).
  exists report, w'. split; [exact Hrun |].
  exact (Cycle_echo _ _ _ _ _ _ _ _ Hcyc).
Qed.

Lemma probe_acc (net : Network) (c : Connector) (acc : list Item) (w : World) :
  forall new w',
    probe net c [] w = (Normal new, w') ->
    probe net c acc w = (Normal (acc ++ new), w').
Proof.
  intros new w'. unfold probe, try_catch, mbind, M_bind, mret, M_ret,
    Date_toISOString, Date_now.
  destruct (fetchWithTimeout net (healthUrl c) None w) as [[a | e |] w1];
    now intros [= <- <-].
Qed.

Lemma GET_loop_acc (net : Network) (cs : list Connector) :
  forall (acc : list Item) (w : World) new w',
    GET_loop net cs [] w = (Normal new, w') ->
    GET_loop net cs acc w = (Normal (acc ++ new), w').
Proof.
  induction cs as [| c cs IH]; intros acc w new w'.
  - intros [= <- <-]. cbn. unfold mret, M_ret. now rewrite app_nil_r.
  - cbn [GET_loop]. unfold mbind, M_bind.
    destruct (probe_spec net c [] w) as (it & ev & w1 & Hp & _).
    rewrite Hp, (probe_acc net c acc w _ _ Hp). cbn [app]. intros Hrest.
    destruct (GET_loop_cycle net cs [] w1) as (new1 & es & w2 & Hrun1 & _).
    rewrite (IH [it] w1 _ _ Hrun1) in Hrest. injection Hrest as <- <-.
    rewrite (IH (acc ++ [it]) w1 _ _ Hrun1). now rewrite <- app_assoc.
Qed.

Lemma GET_loop_app (net : Network) (cs1 cs2 : list Connector) :
  forall (acc : list Item) (w : World),
    GET_loop net (cs1 ++ cs2) acc w =
    (acc1 ← GET_loop net cs1 acc; GET_loop net cs2 acc1) w.
Proof.
  induction cs1 as [| c cs1 IH]; intros acc w; [reflexivity |].
  cbn [app GET_loop]. unfold mbind, M_bind.
  destruct (probe net c acc w) as [[acc1 | e |] w1]; [| reflexivity | reflexivity].
  rewrite IH. reflexivity.
Qed.

(** X6: cycles compose: the report over two catalogs put end to end is the
    report over the first followed by the report over the second, run where
    the first left off.  So what is reported for the connectors at the head
    of the catalog does not depend on the connectors that follow them. *)
Theorem GET_app (net : Network) (cs1 cs2 : list Connector) (w w1 w2 : World)
    (r1 r2 : Report) :
  GET net cs1 w = (Normal r1, w1) ->
  GET net cs2 w1 = (Normal r2, w2) ->
  GET net (cs1 ++ cs2) w = (Normal (mkReport (items r1 ++ items r2)), w2).
Proof.
  unfold GET, mbind, M_bind, mret, M_ret. intros H1 H2.
  destruct (GET_loop net cs1 [] w) as [[its1 | e |] w1'] eqn:Hl1; try discriminate.
  injection H1 as <- <-.
  destruct (GET_loop net cs2 [] w1') as [[its2 | e |] w2'] eqn:Hl2; try discriminate.
  injection H2 as <- <-.
  rewrite GET_loop_app. unfold mbind, M_bind. rewrite Hl1.
  now rewrite (GET_loop_acc net cs2 its1 w1' _ _ Hl2).
Qed.

Lemma GET_app_witness :
  exists r1 w1 r2 w2,
    GET net_mixed (take 2 catalog) boot = (Normal r1, w1) /\
    GET net_mixed (drop 2 catalog) w1 = (Normal r2, w2) /\
    GET net_mixed (take 2 catalog ++ drop 2 catalog) boot =
      (Normal (mkReport (items r1 ++ items r2)), w2).
Proof.
  destruct (GET_cycle net_mixed (take 2 catalog) boot)
    as (r1 & es1 & w1 & H1 & _).
  destruct (GET_cycle net_mixed (drop 2 catalog) w1)
    as (r2 & es2 & w2 & H2 & _).
  exists r1, w1, r2, w2. split; [exact H1 |]. split; [exact H2 |].
  exact (GET_app net_mixed _ _ boot w1 w2 r1 r2 H1 H2).
Defined.

Lemma append_assoc (a b c : string) : (a +:+ b) +:+ c = a +:+ b +:+ c.
Proof.
  induction a as [| x a IH]; [reflexivity |].
  change (String x ((a +:+ b) +:+ c) = String x (a +:+ b +:+ c)).
  now rewrite IH.
Qed.

(** X7: exactly one final slash is dropped.  A url written with or without
    a final slash is probed at the same address, while of two final slashes
    one stays, in front of [/health]. *)
Theorem healthUrl_drops_one_slash (c : Connector) (s : string) :
  strip_trailing_slash s = s ->
  healthUrl (mkConnector (id c) (name c) (s +:+ "/")) =
    healthUrl (mkConnector (id c) (name c) s) /\
  healthUrl (mkConnector (id c) (name c) (s +:+ "/" +:+ "/")) =
    s +:+ "/" +:+ "/health".
Proof.
  intros Hs. unfold healthUrl. cbn [url].
  rewrite strip_trailing_slash_app, Hs. split; [reflexivity |].
  rewrite <- (append_assoc s "/" "/"), strip_trailing_slash_app.
  apply append_assoc.
Qed.

Lemma healthUrl_drops_one_slash_witness :
  healthUrl (mkConnector "b" "B" ("http://b" +:+ "/")) =
    healthUrl (mkConnector "b" "B" "http://b") /\
  healthUrl (mkConnector "b" "B" ("http://b" +:+ "/" +:+ "/")) =
    "http://b" +:+ "/" +:+ "/health".
Proof.
  apply (healthUrl_drops_one_slash (mkConnector "b" "B" "http://b") "http://b").
  reflexivity.
Defined.

(** ** The sign-in gate *)

Import Auth.

Lemma length_append (a b : string) :
  String.length (a +:+ b) = (String.length a + String.length b)%nat.
Proof.
  induction a as [| x a IH]; [reflexivity |].
  change (S (String.length (a +:+ b)) = S (String.length a + String.length b)).
  now rewrite IH.
Qed.

Lemma substring_all (s : string) : String.substring 0 (String.length s) s = s.
Proof. induction s as [| x s IH]; [reflexivity |]. cbn. now rewrite IH. Qed.

Lemma substring_suffix (p x : string) :
  String.substring (String.length p) (String.length x) (p +:+ x) = x.
Proof.
  induction p as [| c p IH]; [apply substring_all |].
  change (String.substring (String.length p) (String.length x) (p +:+ x) = x).
  exact IH.
Qed.

Lemma substring_split (n : nat) :
  forall s : string, (n <= String.length s)%nat ->
    s = String.substring 0 n s +:+ String.substring n (String.length s - n) s.
Proof.
  induction n as [| n IH]; intros s Hn.
  - rewrite Nat.sub_0_r, substring_all. now destruct s.
  - destruct s as [| c s]; [cbn in Hn; lia |].
    cbn in Hn.
    change (String c s =
            String c (String.substring 0 n s +:+
                      String.substring n (String.length s - n) s)).
    f_equal. apply IH. lia.
Qed.

Lemma endsWith_spec (s x : string) :
  endsWith s x = true <-> exists p, s = p +:+ x.
Proof.
  unfold endsWith. split.
  - destruct (Nat.eqb_spec (String.length x) 0) as [H0 | H0].
    { intros _. destruct x; [| discriminate]. exists s.
      clear. induction s as [| c s IH]; [reflexivity |].
      change (String c s = String c (s +:+ "")). now rewrite <- IH. }
    destruct (Nat.ltb_spec (String.length s) (String.length x)) as [Hlt | Hle];
      [discriminate |].
    intros Heq. apply String.eqb_eq in Heq.
    set (n := (String.length s - String.length x)%nat) in *.
    exists (String.substring 0 n s).
    etransitivity; [apply (substring_split n s); lia |].
    f_equal. replace (String.length s - n)%nat with (String.length x) by lia.
    exact Heq.
  - intros [p ->]. rewrite length_append.
    destruct (Nat.eqb_spec (String.length x) 0) as [H0 | H0]; [reflexivity |].
    destruct (Nat.ltb_spec (String.length p + String.length x) (String.length x));
      [lia |].
    replace (String.length p + String.length x - String.length x)%nat
      with (String.length p) by lia.
    rewrite substring_suffix. apply String.eqb_refl.
Qed.

Lemma append_at_nonempty (p d : string) : p +:+ "@" +:+ d <> "".
Proof.
  intros H. apply (f_equal String.length) in H.
  rewrite !length_append in H. cbn in H. lia.
Qed.

Lemma signIn_suffix (d : string) (profile : option Profile) :
  signIn d profile = true <->
  exists e local, profile ≫= email = Some e /\ e = local +:+ "@" +:+ d.
Proof.
  unfold signIn. rewrite endsWith_spec.
  destruct (profile ≫= email) as [[| c e] |]; cbn [or_else].
  - split.
    + intros [p Hp]. symmetry in Hp. now apply append_at_nonempty in Hp.
    + intros (e & local & [= <-] & Hp). symmetry in Hp.
      now apply append_at_nonempty in Hp.
  - split.
    + intros [p Hp]. now exists (String c e), p.
    + intros (e' & local & [= <-] & Hp). now exists local.
  - split.
    + intros [p Hp]. symmetry in Hp. now apply append_at_nonempty in Hp.
    + intros (e & local & [=] & _).
Qed.

Lemma domain_of_app_at (d : string) :
  domain_of d = None -> forall p, domain_of (p +:+ "@" +:+ d) = Some d.
Proof.
  intros Hd p. induction p as [| c p IH].
  - change (domain_of (String "@" d) = Some d). cbn. now rewrite Hd.
  - change (domain_of (String c (p +:+ "@" +:+ d)) = Some d).
    cbn. now rewrite IH.
Qed.

Lemma domain_of_split (e d : string) :
  domain_of e = Some d -> exists p, e = p +:+ "@" +:+ d.
Proof.
  revert d. induction e as [| c e IH]; intros d; [discriminate |].
  cbn. destruct (domain_of e) as [d' |].
  - intros [= <-]. destruct (IH d' eq_refl) as [p ->]. now exists (String c p).
  - destruct (Ascii.eqb_spec c "@"%char) as [-> |]; [| discriminate].
    intros [= <-]. now exists "".
Qed.

Lemma signIn_domain (d : string) (profile : option Profile) :
  domain_of d = None ->
  signIn d profile = true <->
  exists e, profile ≫= email = Some e /\ domain_of e = Some d.
Proof.
  intros Hd. rewrite signIn_suffix. split.
  - intros (e & local & He & ->). exists (local +:+ "@" +:+ d).
    split; [exact He | now apply domain_of_app_at].
  - intros (e & He & Hdom). destruct (domain_of_split _ _ Hdom) as [p ->].
    now exists (p +:+ "@" +:+ d), p.
Qed.

(** X8: the gate admits a sign-in exactly when the profile carries an email
    that ends with [@] and the allowed domain; a missing profile, a missing
    email and the empty email are turned away.  The part before the [@] is
    not looked at, it may even be empty. *)
Theorem signIn_admits_suffix (d : string) (profile : option Profile) :
  (signIn d profile = true <->
   exists e local, profile ≫= email = Some e /\ e = local +:+ "@" +:+ d) /\
  signIn d None = false /\
  signIn d (Some (mkProfile None)) = false /\
  signIn d (Some (mkProfile (Some ""))) = false /\
  signIn d (Some (mkProfile (Some ("@" +:+ d)))) = true.
Proof.
  split; [apply signIn_suffix |].
  assert (Hno : forall p, p ≫= email = None \/ p ≫= email = Some "" ->
                          signIn d p = false).
  { intros p Hp. destruct (signIn d p) eqn:Hs; [| reflexivity].
    apply signIn_suffix in Hs. destruct Hs as (e & local & He & ->).
    destruct Hp as [Hp | Hp]; rewrite Hp in He; [discriminate |].
    injection He as He. symmetry in He. now apply append_at_nonempty in He. }
  repeat split; try (apply Hno; cbn; auto).
  apply signIn_suffix. now exists ("@" +:+ d), "".
Qed.

Lemma signIn_admits_suffix_witness :
  signIn "seh.foundation" (Some (mkProfile (Some "ana@seh.foundation"))) = true.
Proof.
  destruct (signIn_admits_suffix "seh.foundation"
              (Some (mkProfile (Some "ana@seh.foundation")))) as [Hiff _].
  apply Hiff. now exists "ana@seh.foundation", "ana".
Defined.

(** X9: when the allowed domain has no [@] in it, the gate admits exactly
    the addresses whose domain, the text after the last [@], is the allowed
    domain letter for letter: no subdomain of it, no longer name ending like
    it, no other spelling gets through. *)
Theorem signIn_admits_exact_domain (d : string) (profile : option Profile) :
  domain_of d = None ->
  signIn d profile = true <->
  exists e, profile ≫= email = Some e /\ domain_of e = Some d.
Proof. apply signIn_domain. Qed.

Lemma signIn_admits_exact_domain_witness :
  signIn "seh.foundation" (Some (mkProfile (Some "ana@mail.seh.foundation"))) = false /\
  signIn "seh.foundation" (Some (mkProfile (Some "ana@notseh.foundation"))) = false /\
  signIn "seh.foundation" (Some (mkProfile (Some "bo@x@seh.foundation"))) = true.
Proof.
  assert (Hd : domain_of "seh.foundation" = None) by reflexivity.
  split; [| split].
  - destruct (signIn "seh.foundation"
                (Some (mkProfile (Some "ana@mail.seh.foundation")))) eqn:Hs;
      [| reflexivity].
    apply (signIn_admits_exact_domain _ _ Hd) in Hs.
    destruct Hs as (e & [= <-] & Hdom). discriminate Hdom.
  - destruct (signIn "seh.foundation"
                (Some (mkProfile (Some "ana@notseh.foundation")))) eqn:Hs;
      [| reflexivity].
    apply (signIn_admits_exact_domain _ _ Hd) in Hs.
    destruct Hs as (e & [= <-] & Hdom). discriminate Hdom.
  - apply (signIn_admits_exact_domain _ _ Hd).
    now exists "bo@x@seh.foundation".
Defined.

(** X10: with [ALLOWED_EMAIL_DOMAIN] unset, or set to the empty string, the
    gate falls back on [seh.foundation]: it admits exactly the addresses of
    that domain, and an empty setting does not open it to every address. *)
Theorem signIn_default_domain (env : option string) (profile : option Profile) :
  env = None \/ env = Some "" ->
  signIn (allowedDomain env) profile = true <->
  exists e, profile ≫= email = Some e /\ domain_of e = Some "seh.foundation".
Proof.
  intros [-> | ->]; now apply signIn_domain.
Qed.

Lemma signIn_default_domain_witness :
  signIn (allowedDomain (Some "")) (Some (mkProfile (Some "ana@seh.foundation"))) = true /\
  signIn (allowedDomain (Some "")) (Some (mkProfile (Some "ana@"))) = false.
Proof.
  split.
  - apply (signIn_default_domain (Some "") _ (or_intror eq_refl)).
    now exists "ana@seh.foundation".
  - destruct (signIn (allowedDomain (Some "")) (Some (mkProfile (Some "ana@"))))
      eqn:Hs; [| reflexivity].
    apply (signIn_default_domain (Some "") _ (or_intror eq_refl)) in Hs.
    destruct Hs as (e & [= <-] & Hdom). discriminate Hdom.
Defined.

(** ** The status page over the report of the route *)

Import StatusView.

Lemma text_ms_not_na (s : string) : s +:+ " ms" <> "n/a".
Proof.
  intros H. pose proof (f_equal String.length H) as Hlen.
  rewrite length_append in Hlen. cbn in Hlen.
  destruct s; [discriminate H | cbn in Hlen; lia].
Qed.

(** X11: the badge of a connector reads [healthy] exactly when its probe
    received, strictly within the 4000 ms, a response with a status from 200
    to 299; in every other case it reads [down]. *)
Theorem badge_healthy_iff (net : Network) (connectors : list Connector)
    (w : World) (i : nat) (c : Connector) :
  connectors !! i = Some c ->
  exists report w' it,
    GET net connectors w = (Normal report, w') /\
    items report !! i = Some it /\
    (badge_text it = "healthy" <->
     exists st e, net (requests w + i)%nat (healthUrl c) = Responds st e /\
                  e < 4000 /\ 200 <= st <= 299) /\
    (badge_text it = "healthy" \/ badge_text it = "down").
Proof.
  intros Hi.
  destruct (GET_item net connectors w i c Hi)
    as (report & w' & it & t0 & k0 & ev & t1 & Hrun & Hit & _ & _ & _ & Hp).
  exists report, w', it. repeat (split; [assumption |]).
  unfold badge_text. split; [| destruct (item_ok it); auto].
  destruct (Probed_inv _ _ _ _ _ _ _ _ Hp)
    as [(st & e & Ho & He & Hok & _) | (Hok & _ & _ & Hwhy)]; rewrite Hok.
  - destruct (Response_ok (mkResponse st)) eqn:Hb.
    + split; [| reflexivity]. intros _. exists st, e.
      now apply Response_ok_spec in Hb.
    + split; [discriminate |]. intros (st' & e' & Ho' & _ & Hst).
      rewrite Ho in Ho'. injection Ho' as <- <-.
      now apply Response_ok_false in Hb.
  - split; [discriminate |]. intros (st & e & Ho & He & _).
    destruct Hwhy as [(e' & Ho' & _) | Hlate]; [congruence |].
    rewrite Ho in Hlate. cbn in Hlate. apply Z.ltb_ge in Hlate. lia.
Qed.

Lemma badge_healthy_iff_witness :
  exists report w' it,
    GET net_mixed catalog boot = (Normal report, w') /\
    items report !! 0%nat = Some it /\
    badge_text it = "healthy".
Proof.
  destruct (badge_healthy_iff net_mixed catalog boot 0
              (mkConnector "a" "A" "http://a/") eq_refl)
    as (report & w' & it & Hrun & Hit & Hiff & _).
  exists report, w', it. split; [exact Hrun |]. split; [exact Hit |].
  apply Hiff. exists 200, 120. split; [reflexivity | lia].
Defined.

(** X12: the Status cell of a connector reads [n/a] exactly when its probe
    received no response within the 4000 ms (or a status 0); the Latency cell
    reads [n/a] exactly when no response was received or the response took 0
    ms, so a response received within the same millisecond shows no
    latency. *)
Theorem cells_read_na_iff (net : Network) (connectors : list Connector)
    (w : World) (i : nat) (c : Connector) :
  connectors !! i = Some c ->
  exists report w' it,
    GET net connectors w = (Normal report, w') /\
    items report !! i = Some it /\
    (status_cell it = TextNode "n/a" <->
     no_response (net (requests w + i)%nat (healthUrl c)) 4000 \/
     exists e, net (requests w + i)%nat (healthUrl c) = Responds 0 e) /\
    (latency_cell it = TextNode "n/a" <->
     no_response (net (requests w + i)%nat (healthUrl c)) 4000 \/
     exists st, net (requests w + i)%nat (healthUrl c) = Responds st 0).
Proof.
  intros Hi.
  destruct (GET_item net connectors w i c Hi)
    as (report & w' & it & t0 & k0 & ev & t1 & Hrun & Hit & _ & _ & _ & Hp).
  exists report, w', it. repeat (split; [assumption |]).
  unfold status_cell, latency_cell.
  destruct (Probed_inv _ _ _ _ _ _ _ _ Hp)
    as [(st & e & Ho & He & _ & Hst & Hlat) | (_ & Hst & Hlat & Hwhy)];
    rewrite Hst, Hlat.
  - rewrite Ho. cbn [no_response]. split.
    + destruct (Z.eqb_spec st 0) as [-> | Hne].
      * split; [intros _; right; now exists e | reflexivity].
      * split; [discriminate |]. intros [Hlate | (e' & [= -> _])]; [lia | easy].
    + destruct (Z.eqb_spec e 0) as [-> | Hne].
      * split; [intros _; right; now exists st | reflexivity].
      * split.
        -- intros [= Hna]. now apply text_ms_not_na in Hna.
        -- intros [Hlate | (st' & [= _ ->])]; [lia | easy].
  - assert (Hno : no_response (net (requests w + i)%nat (healthUrl c)) 4000).
    { destruct Hwhy as [(e' & -> & _) | Hlate]; [exact I |].
      destruct (net (requests w + i)%nat (healthUrl c)); cbn in *;
        [now apply Z.ltb_ge in Hlate | exact I | exact I]. }
    split; (split; [intros _; now left | reflexivity]).
Qed.

Lemma cells_read_na_iff_witness :
  exists report w' it,
    GET (fun _ _ => Responds 200 0) catalog boot = (Normal report, w') /\
    items report !! 0%nat = Some it /\
    latency_cell it = TextNode "n/a".
Proof.
  destruct (cells_read_na_iff (fun _ _ => Responds 200 0) catalog boot 0
              (mkConnector "a" "A" "http://a/") eq_refl)
    as (report & w' & it & Hrun & Hit & _ & Hlat).
  exists report, w', it. split; [exact Hrun |]. split; [exact Hit |].
  apply Hlat. right. now exists 200.
Defined.

Lemma Probed_verdict o t k b s l ev t' t0 k0 b0 s0 l0 ev0 t0' :
  Probed o t k b s l ev t' ->
  Probed o t0 k0 b0 s0 l0 ev0 t0' ->
  b = b0 /\ s = s0 /\ l = l0.
Proof.
  intros H1 H2.
  destruct (Probed_inv _ _ _ _ _ _ _ _ H1)
    as [(st & e & Ho & He & -> & -> & ->) | (-> & -> & -> & Hwhy)];
    destruct (Probed_inv _ _ _ _ _ _ _ _ H2)
      as [(st0 & e0 & Ho0 & He0 & -> & -> & ->) | (-> & -> & -> & Hwhy0)];
    try (repeat split; reflexivity).
  - rewrite Ho in Ho0. now injection Ho0 as <- <-.
  - exfalso. destruct Hwhy0 as [(e' & Ho' & _) | Hlate]; [congruence |].
    rewrite Ho in Hlate. cbn in Hlate. apply Z.ltb_ge in Hlate. lia.
  - exfalso. destruct Hwhy as [(e' & Ho' & _) | Hlate]; [congruence |].
    rewrite Ho0 in Hlate. cbn in Hlate. apply Z.ltb_ge in Hlate. lia.
Qed.

(** X13: probes are isolated.  What is reported for a connector, apart from
    the time stamp, depends only on what the remote end does with its own
    request: two networks that treat the request of the connector at position
    [i] alike give items at [i] with the same id, name, url, [ok], status and
    latency, however differently they treat every other connector. *)
Theorem probe_isolation (net1 net2 : Network) (connectors : list Connector)
    (w : World) (i : nat) (c : Connector) :
  connectors !! i = Some c ->
  net1 (requests w + i)%nat (healthUrl c) = net2 (requests w + i)%nat (healthUrl c) ->
  exists report1 w1 report2 w2 it1 it2,
    GET net1 connectors w = (Normal report1, w1) /\
    GET net2 connectors w = (Normal report2, w2) /\
    items report1 !! i = Some it1 /\
    items report2 !! i = Some it2 /\
    item_id it1 = item_id it2 /\ item_name it1 = item_name it2 /\
    item_url it1 = item_url it2 /\ item_ok it1 = item_ok it2 /\
    item_status_code it1 = item_status_code it2 /\
    item_latency_ms it1 = item_latency_ms it2.
Proof.
  intros Hi Hsame.
  destruct (GET_item net1 connectors w i c Hi)
    as (r1 & w1 & it1 & ta & ka & eva & ta' & Hrun1 & Hit1 & Hid1 & Hn1 & Hu1 & Hp1).
  destruct (GET_item net2 connectors w i c Hi)
    as (r2 & w2 & it2 & tb & kb & evb & tb' & Hrun2 & Hit2 & Hid2 & Hn2 & Hu2 & Hp2).
  exists r1, w1, r2, w2, it1, it2. repeat (split; [assumption |]).
  rewrite Hsame in Hp1.
  destruct (Probed_verdict _ _ _ _ _ _ _ _ _ _ _ _ _ _ _ Hp1 Hp2) as (Hb & Hs & Hl).
  repeat split; congruence.
Qed.

Lemma probe_isolation_witness :
  exists report1 w1 report2 w2 it1 it2,
    GET net_mixed catalog boot = (Normal report1, w1) /\
    GET (fun n u => match n with 1%nat => Responds 404 30 | _ => Hangs end)
        catalog boot = (Normal report2, w2) /\
    items report1 !! 1%nat = Some it1 /\
    items report2 !! 1%nat = Some it2 /\
    item_id it1 = item_id it2 /\ item_name it1 = item_name it2 /\
    item_url it1 = item_url it2 /\ item_ok it1 = item_ok it2 /\
    item_status_code it1 = item_status_code it2 /\
    item_latency_ms it1 = item_latency_ms it2.
Proof.
  apply (probe_isolation net_mixed
           (fun n u => match n with 1%nat => Responds 404 30 | _ => Hangs end)
           catalog boot 1 (mkConnector "b" "B" "http://b"));
    reflexivity.
Defined.

(** X14: whatever the probes do, and whatever the page held before, once the
    answer of the route arrives at a mounted page, the page is no longer
    loading, holds no error, and shows one card per connector, keyed by the
    ids of the catalog in catalog order; after the clean-up of the effect the
    same answer changes nothing. *)
Theorem page_shows_the_report (net : Network) (connectors : list Connector)
    (w : World) (st : Status) :
  exists report w',
    GET net connectors w = (Normal report, w') /\
    loading (on_data true (body report) st) = false /\
    error (on_data true (body report) st) = None /\
    item_id <$> shown (on_data true (body report) st) = id <$> connectors /\
    on_data false (body report) st = st.
Proof.
  destruct (GET_cycle net connectors w) as (report & es & w' & Hrun & _ & Hcyc).
  exists report, w'. split; [exact Hrun |]. cbn.
  repeat split. exact (Cycle_ids _ _ _ _ _ _ _ _ Hcyc).
Qed.

Lemma step_inactive (evs : list ViewEvent) (st : Status) :
  foldl step (false, st) evs = (false, st).
Proof.
  induction evs as [| ev evs IH]; [reflexivity |].
  destruct ev; cbn; exact IH.
Qed.

Lemma step_loaded (evs : list ViewEvent) :
  forall (a : bool) (st : Status),
    loading st = false -> loading (foldl step (a, st) evs).2 = false.
Proof.
  induction evs as [| ev evs IH]; intros a st Hst; [exact Hst |].
  destruct ev as [data | message |]; cbn [foldl step fst snd];
    apply IH; try exact Hst; unfold on_data, on_error; now destruct a.
Qed.

(** X15: the guard of the effect holds: once the effect is cleaned up, no
    answer and no failure that arrives later changes what the page holds; and
    once the page has stopped loading (after the first answer or failure that
    reaches it) it never goes back to loading. *)
Theorem page_is_frozen_after_cleanup (before after : list ViewEvent) :
  (run (before ++ CleanedUp :: after)).2 = (run before).2 /\
  (forall ev later,
      ev <> CleanedUp ->
      loading (run (ev :: later)).2 = false).
Proof.
  split.
  - unfold run. rewrite foldl_app. cbn [foldl step].
    now rewrite step_inactive.
  - intros ev later Hev. unfold run. cbn [foldl].
    destruct ev as [data | message |]; [| | congruence];
      now apply step_loaded.
Qed.

Lemma page_is_frozen_after_cleanup_witness :
  loading (run [Rejected "offline"; CleanedUp; Resolved (mkData None None)]).2 = false.
Proof.
  destruct (page_is_frozen_after_cleanup [] []) as [_ Hload].
  apply Hload. discriminate.
Defined.
